(** * The mirrored buffer cache ([src/include/buffer_cache/mirrored.hpp])

    [mirrored_cache_t<config_t>] composes five policies, which it inherits
    from: the serializer, the buffer allocator, the page map, the page
    replacement policy and the writeback.  The header contains the
    transaction API ([begin_transaction], [end_transaction], [allocate],
    [acquire], [release]) and the completion funnel [aio_complete].

    The six member functions are embedded from the header, statement by
    statement, in a small state-and-failure monad over a [world]: the
    thread's cpu context, the heap of [aio_context] objects and the state of
    the five policies.  The policies themselves are template parameters and
    are not part of the header; each one is modelled from its contract in
    the specification and marked as such.

    The embedding is that of a debug build ([NDEBUG] undefined): the
    [assert]s are live and [aio_context] has its [event_queue] member. *)

From Stdlib Require Import NArith ZArith List Lia.
From Stdlib.Strings Require Import Byte.
From stdpp Require Import base option list gmap fin_maps.

Open Scope N_scope.

(** ** Data *)

(** Pointers ([void*], [event_queue_t*], [aio_context_t*]) are addresses;
    the null pointer is address 0. *)
Abbreviation ptr := N (only parsing).
Definition NULL : ptr := 0.
Definition is_null (p : ptr) : bool := p =? NULL.

(** [serializer_t::block_id_t] *)
Abbreviation block_id_t := N (only parsing).

(** [typedef event_queue_t transaction_t;] the API passes [transaction_t*]. *)
Abbreviation transaction_t := N (only parsing).

(** [struct aio_context] (debug build). *)
Record aio_context : Type := mk_aio_context {
  user_state : ptr;
  block_id : block_id_t;
  event_queue : ptr
}.

(** An asynchronous request handed to the serializer: the arguments of
    [do_read(tm, block_id, buf, ctx)]. *)
Record io_request : Type := mk_io_request {
  io_tm : transaction_t;
  io_block_id : block_id_t;
  io_buf : ptr;
  io_ctx : ptr
}.

(** A block recorded by the writeback as needing a flush: the arguments of
    [mark_dirty] and the identifier the eventual write will go to. *)
Record dirty_block : Type := mk_dirty_block {
  dirty_tm : transaction_t;
  dirty_block_id : block_id_t;
  dirty_target_id : block_id_t;
  dirty_buf : ptr;
  dirty_state : ptr
}.

(** ** The policies *)

(** [config_t::serializer_t] is a template parameter and not part of the
    header.  The spec (sections 2 and 6) gives it a block size fixed at
    construction, [gen_block_id() -> BlockId] returning a fresh identifier,
    and asynchronous reads and writes keyed by an AIOContext.  Identifiers
    are generated from a counter; the requests issued are kept in two logs,
    in order of issue; [copy_on_write] says whether the serializer reassigns
    identifiers on write (spec section 3, BlockId). *)
Module serializer_t.
(** Modelled from the spec: the state of the serializer, which the header
    does not define: the block size, the counter identifiers come from,
    whether writes reassign identifiers, and the requests issued. *)
Record t : Type := mk {
  block_size : N;
  next_block_id : block_id_t;
  copy_on_write : bool;
  reads : list io_request;
  writes : list io_request
}.

(** Modelled from the spec: [serializer_t::gen_block_id] is not defined in
    the header; by the spec (section 6) it returns a fresh BlockId. *)
Definition gen_block_id (s : t) : block_id_t * t :=
  (next_block_id s,
   mk (block_size s) (N.succ (next_block_id s)) (copy_on_write s)
      (reads s) (writes s)).

(** Modelled from the spec: [do_read] is not defined in the header; by the
    spec (section 6) it starts an asynchronous read of the block into the
    buffer, keyed by the context. *)
Definition do_read (tm : transaction_t) (b : block_id_t) (buf ctx : ptr)
    (s : t) : t :=
  mk (block_size s) (next_block_id s) (copy_on_write s)
     (reads s ++ [mk_io_request tm b buf ctx]) (writes s).

(** Modelled from the spec: the serializer's write is not defined in the
    header; by the spec (section 6) it starts an asynchronous write of the
    buffer to the block, keyed by the context. *)
Definition do_write (tm : transaction_t) (b : block_id_t) (buf ctx : ptr)
    (s : t) : t :=
  mk (block_size s) (next_block_id s) (copy_on_write s)
     (reads s) (writes s ++ [mk_io_request tm b buf ctx]).
End serializer_t.

(** [config_t::buffer_alloc_t] is a template parameter and not part of the
    header.  The spec (section 4.2) gives it [malloc(size) -> buffer],
    returning memory that never overlaps a live allocation, and the cache
    assumes it succeeds.  The allocator hands out consecutive regions of its
    arena; [arena] is the content of the memory it manages, which [malloc]
    does not touch. *)
Module buffer_alloc_t.
(** Modelled from the spec: the state of the allocator, which the header
    does not define: where its free memory starts and what its memory
    holds. *)
Record t : Type := mk {
  heap_top : ptr;
  arena : ptr -> byte
}.

(** Modelled from the spec: [buffer_alloc_t::malloc] is not defined in the
    header; by the spec (section 4.2) it returns [size] bytes that overlap
    no live allocation.  Nothing there says what the bytes hold: they are
    what the arena held. *)
Definition malloc (size : N) (a : t) : ptr * t :=
  (heap_top a, mk (heap_top a + size) (arena a)).

(** The [size] bytes of the buffer at [p]. *)
Definition contents (a : t) (p : ptr) (size : N) : list byte :=
  map (fun i => arena a (p + N.of_nat i)) (seq 0 (N.to_nat size)).
End buffer_alloc_t.

(** [config_t::page_map_t] is a template parameter and not part of the
    header.  The spec (section 4.3) gives it
    [find(BlockId) -> buffer | absent] and [set(BlockId, buffer)]; the header
    tests the result of [find] against the null pointer, so absence is the
    null pointer. *)
Module page_map_t.
(** Modelled from the spec: [page_map_t::find] is not defined in the
    header; by the spec (section 4.3) it returns the buffer of the
    identifier, or its absence, which the header reads as the null
    pointer. *)
Definition find (b : block_id_t) (m : gmap block_id_t ptr) : ptr :=
  default NULL (m !! b).

(** Modelled from the spec: [page_map_t::set] is not defined in the header;
    by the spec (section 4.3) it associates the buffer with the
    identifier. *)
Definition set (b : block_id_t) (block : ptr) (m : gmap block_id_t ptr)
    : gmap block_id_t ptr :=
  <[b := block]> m.

(** The number of entries the map holds for [b]. *)
Definition entries (b : block_id_t) (m : gmap block_id_t ptr) : nat :=
  length (filter (fun kv => kv.1 = b) (map_to_list m)).
End page_map_t.

(** [config_t::page_repl_t] is a template parameter and not part of the
    header.  The spec (sections 3 and 4.4) gives it a pin count per BlockId,
    changed by [pin(BlockId)] and [unpin(BlockId)]; the count kept here is
    the net count of the spec's section 8, the number of [pin] calls minus
    the number of [unpin] calls.  Eviction is the policy's own activity and
    none of the six functions of the header asks for it. *)
Module page_repl_t.
(** Modelled from the spec: the pin count of an identifier (spec section 3,
    PinState), which the header does not define. *)
Definition pin_count (m : gmap block_id_t Z) (b : block_id_t) : Z :=
  default 0%Z (m !! b).

(** Modelled from the spec: [page_repl_t::pin] is not defined in the header;
    by the spec (sections 3 and 4.4) it adds a pin to the identifier. *)
Definition pin (b : block_id_t) (m : gmap block_id_t Z)
    : gmap block_id_t Z :=
  <[b := (pin_count m b + 1)%Z]> m.

(** Modelled from the spec: [page_repl_t::unpin] is not defined in the
    header; by the spec (sections 3 and 4.4) it takes a pin off the
    identifier. *)
Definition unpin (b : block_id_t) (m : gmap block_id_t Z)
    : gmap block_id_t Z :=
  <[b := (pin_count m b - 1)%Z]> m.
End page_repl_t.

(** The state of the cache object: one component per base class.  The
    writeback's component is its list of blocks waiting for a flush. *)
Record mirrored_cache_t : Type := mk_cache {
  serializer : serializer_t.t;
  buffer_alloc : buffer_alloc_t.t;
  page_map : gmap block_id_t ptr;
  page_repl : gmap block_id_t Z;
  writeback : list dirty_block
}.

(** What the code runs in: the calling thread's [get_cpu_context()], the
    [aio_context] objects made by [new] and not yet [delete]d, and the
    cache. *)
Record world : Type := mk_world {
  cpu_event_queue : ptr;
  contexts : gmap ptr aio_context;
  context_top : ptr;
  cache : mirrored_cache_t
}.

Definition set_cache (f : mirrored_cache_t -> mirrored_cache_t) (w : world)
    : world :=
  mk_world (cpu_event_queue w) (contexts w) (context_top w) (f (cache w)).

Definition set_contexts (f : gmap ptr aio_context -> gmap ptr aio_context)
    (w : world) : world :=
  mk_world (cpu_event_queue w) (f (contexts w)) (context_top w) (cache w).

Definition set_serializer (f : serializer_t.t -> serializer_t.t)
    (c : mirrored_cache_t) : mirrored_cache_t :=
  mk_cache (f (serializer c)) (buffer_alloc c) (page_map c) (page_repl c)
           (writeback c).

Definition set_buffer_alloc (f : buffer_alloc_t.t -> buffer_alloc_t.t)
    (c : mirrored_cache_t) : mirrored_cache_t :=
  mk_cache (serializer c) (f (buffer_alloc c)) (page_map c) (page_repl c)
           (writeback c).

Definition set_page_map (f : gmap block_id_t ptr -> gmap block_id_t ptr)
    (c : mirrored_cache_t) : mirrored_cache_t :=
  mk_cache (serializer c) (buffer_alloc c) (f (page_map c)) (page_repl c)
           (writeback c).

Definition set_page_repl (f : gmap block_id_t Z -> gmap block_id_t Z)
    (c : mirrored_cache_t) : mirrored_cache_t :=
  mk_cache (serializer c) (buffer_alloc c) (page_map c) (f (page_repl c))
           (writeback c).

Definition set_writeback (f : list dirty_block -> list dirty_block)
    (c : mirrored_cache_t) : mirrored_cache_t :=
  mk_cache (serializer c) (buffer_alloc c) (page_map c) (page_repl c)
           (f (writeback c)).

(** ** The monad: state, failed assertions, undefined behaviour *)

Inductive outcome (A : Type) : Type :=
| Done (a : A) (w : world)
| AssertionFailed
| Undefined.
Arguments Done {A} a w.
Arguments AssertionFailed {A}.
Arguments Undefined {A}.

Definition M (A : Type) : Type := world -> outcome A.

Definition ret {A} (a : A) : M A := fun w => Done a w.

Definition bind {A B} (m : M A) (k : A -> M B) : M B :=
  fun w =>
    match m w with
    | Done a w' => k a w'
    | AssertionFailed => AssertionFailed
    | Undefined => Undefined
    end.

#[global] Instance M_ret : MRet M := @ret.
#[global] Instance M_bind : MBind M := fun A B k m => bind m k.

(** [assert(c)] *)
Definition assert (c : bool) : M unit :=
  fun w => if c then Done tt w else AssertionFailed.

(** Modelled from the spec: [get_cpu_context()] is declared in
    [cpu_context.hpp], which is not given; by the spec (section 6) it gives
    the identity of the current execution context, here the event queue of
    the calling thread. *)
Definition get_cpu_context_event_queue : M ptr :=
  fun w => Done (cpu_event_queue w) w.

Definition modify_cache (f : mirrored_cache_t -> mirrored_cache_t) : M unit :=
  fun w => Done tt (set_cache f w).

(** The policies' operations, run on the cache's components. *)
Definition serializer_gen_block_id : M block_id_t :=
  fun w =>
    let (b, s) := serializer_t.gen_block_id (serializer (cache w)) in
    Done b (set_cache (set_serializer (fun _ => s)) w).

Definition serializer_block_size : M N :=
  fun w => Done (serializer_t.block_size (serializer (cache w))) w.

Definition serializer_copy_on_write : M bool :=
  fun w => Done (serializer_t.copy_on_write (serializer (cache w))) w.

Definition do_read (tm : transaction_t) (b : block_id_t) (buf ctx : ptr)
    : M unit :=
  modify_cache (set_serializer (serializer_t.do_read tm b buf ctx)).

Definition do_write (tm : transaction_t) (b : block_id_t) (buf ctx : ptr)
    : M unit :=
  modify_cache (set_serializer (serializer_t.do_write tm b buf ctx)).

Definition buffer_alloc_malloc (size : N) : M ptr :=
  fun w =>
    let (p, a) := buffer_alloc_t.malloc size (buffer_alloc (cache w)) in
    Done p (set_cache (set_buffer_alloc (fun _ => a)) w).

Definition page_map_find (b : block_id_t) : M ptr :=
  fun w => Done (page_map_t.find b (page_map (cache w))) w.

Definition page_map_set (b : block_id_t) (block : ptr) : M unit :=
  modify_cache (set_page_map (page_map_t.set b block)).

Definition page_repl_pin (b : block_id_t) : M unit :=
  modify_cache (set_page_repl (page_repl_t.pin b)).

Definition page_repl_unpin (b : block_id_t) : M unit :=
  modify_cache (set_page_repl (page_repl_t.unpin b)).

(** Modelled from the spec: [aio_context] allocates through [alloc_mixin_t],
    which is not given; by the spec (section 3, AIOContext) a context is
    created for each request and destroyed once.  [new aio_context_t()]
    makes a fresh object, its members zeroed. *)
Definition new_aio_context : M ptr :=
  fun w =>
    Done (context_top w)
         (mk_world (cpu_event_queue w)
                   (<[context_top w := mk_aio_context NULL 0 NULL]> (contexts w))
                   (N.succ (context_top w)) (cache w)).

(** Member access through an [aio_context_t*]: undefined when the object is
    not live. *)
Definition load {A} (ctx : ptr) (member : aio_context -> A) : M A :=
  fun w =>
    match contexts w !! ctx with
    | Some c => Done (member c) w
    | None => Undefined
    end.

Definition store (ctx : ptr) (f : aio_context -> aio_context) : M unit :=
  fun w =>
    match contexts w !! ctx with
    | Some c => Done tt (set_contexts <[ctx := f c]> w)
    | None => Undefined
    end.

Definition store_user_state (ctx : ptr) (v : ptr) : M unit :=
  store ctx (fun c => mk_aio_context v (block_id c) (event_queue c)).
Definition store_block_id (ctx : ptr) (v : block_id_t) : M unit :=
  store ctx (fun c => mk_aio_context (user_state c) v (event_queue c)).
Definition store_event_queue (ctx : ptr) (v : ptr) : M unit :=
  store ctx (fun c => mk_aio_context (user_state c) (block_id c) v).

(** Modelled from the spec: [delete ctx], through the same [alloc_mixin_t];
    destroying an object that is not live is undefined. *)
Definition delete_aio_context (ctx : ptr) : M unit :=
  fun w =>
    match contexts w !! ctx with
    | Some _ => Done tt (set_contexts (delete ctx) w)
    | None => Undefined
    end.

(** Modelled from the spec: [config_t::writeback_t] is a template parameter
    and not part of the header.  By the spec (sections 4.1 and 4.5)
    [mark_dirty(Transaction, BlockId, buffer, callerState) -> BlockId]
    records the block as needing a flush and returns the identifier the
    caller is to use from then on: a new one, allocated for the eventual
    write, when the serializer is copy-on-write, the same one otherwise. *)
Definition writeback_mark_dirty (tm : transaction_t) (b : block_id_t)
    (block state : ptr) : M block_id_t :=
  cow ← serializer_copy_on_write;
  target ← (if cow : bool then serializer_gen_block_id else mret b);
  modify_cache
    (set_writeback (fun d => d ++ [mk_dirty_block tm b target block state])) ;;
  mret target.

(** Modelled from the spec: the writeback's flush is not part of the header.
    By the spec (section 4.5) the writeback issues, on its own schedule, the
    asynchronous write of a block it recorded, tagged with an AIOContext so
    that the completion comes back through [aio_complete]; the context names
    the identifier the block was released under, which is the one whose pin
    the completion gives back (spec section 4.1, [aio_complete]).  [i] is the
    position of the block the schedule picks. *)
Definition writeback_flush (i : nat) : M unit :=
  fun w =>
    match writeback (cache w) !! i with
    | None => Done tt w
    | Some e =>
        (ctx ← new_aio_context;
         store_user_state ctx (dirty_state e) ;;
         store_block_id ctx (dirty_block_id e) ;;
         store_event_queue ctx (dirty_tm e) ;;
         modify_cache (set_writeback (delete i)) ;;
         do_write (dirty_tm e) (dirty_target_id e) (dirty_buf e) ctx) w
    end.

(** ** The cache: [mirrored_cache_t] *)

(** [transaction_t* begin_transaction()] *)
Definition begin_transaction : M transaction_t :=
  event_queue ← get_cpu_context_event_queue;
  mret event_queue.

(** [void end_transaction(transaction_t* transaction)] *)
Definition end_transaction (transaction : transaction_t) : M unit :=
  q ← get_cpu_context_event_queue;
  assert (transaction =? q).

(** [void* allocate(transaction_t* tm, block_id_t *block_id)]; the identifier
    stored through the out-parameter is the second component of the result. *)
Definition allocate (tm : transaction_t) : M (ptr * block_id_t) :=
  q ← get_cpu_context_event_queue;
  assert (tm =? q) ;;
  block_id ← serializer_gen_block_id;
  size ← serializer_block_size;
  block ← buffer_alloc_malloc size;
  page_map_set block_id block ;;
  page_repl_pin block_id ;;
  mret (block, block_id).

(** [void* acquire(transaction_t* tm, block_id_t block_id, void *state)] *)
Definition acquire (tm : transaction_t) (block_id : block_id_t) (state : ptr)
    : M ptr :=
  q ← get_cpu_context_event_queue;
  assert (tm =? q) ;;
  block ← page_map_find block_id;
  (if is_null block then
     size ← serializer_block_size;
     buf ← buffer_alloc_malloc size;
     ctx ← new_aio_context;
     store_user_state ctx state ;;
     store_block_id ctx block_id ;;
     store_event_queue ctx tm ;;
     do_read tm block_id buf ctx
   else
     page_repl_pin block_id) ;;
  mret block.

(** [block_id_t release(transaction_t* tm, block_id_t block_id, void *block,
    bool dirty, void *state)] *)
Definition release (tm : transaction_t) (block_id : block_id_t) (block : ptr)
    (dirty : bool) (state : ptr) : M block_id_t :=
  q ← get_cpu_context_event_queue;
  assert (tm =? q) ;;
  (if dirty then
     writeback_mark_dirty tm block_id block state
   else
     page_repl_unpin block_id ;;
     mret block_id).

(** [void aio_complete(aio_context_t *ctx, void *block, bool written)].
    The header's assertion is [assert(ctx->event_queue = ...)], with a single
    [=]: it stores the current event queue into the context and tests the
    stored pointer against null. *)
Definition aio_complete (ctx : ptr) (block : ptr) (written : bool) : M unit :=
  q ← get_cpu_context_event_queue;
  store_event_queue ctx q ;;
  assert (negb (is_null q)) ;;
  block_id ← load ctx block_id;
  delete_aio_context ctx ;;
  (if written then
     page_repl_unpin block_id
   else
     page_map_set block_id block ;;
     page_repl_pin block_id).

(** ** Sequences of events *)

(** What reaches the cache: the calls of the transaction API, the
    writeback's flush of the block at a position of its list, and the
    completions the serializer delivers. *)
Inductive event : Type :=
| Allocate (tm : transaction_t)
| Acquire (tm : transaction_t) (b : block_id_t) (state : ptr)
| Release (tm : transaction_t) (b : block_id_t) (block : ptr) (dirty : bool)
    (state : ptr)
| Flush (i : nat)
| Complete (ctx block : ptr) (written : bool).

(** What an event came to, as its caller sees it. *)
Inductive observation : Type :=
| Allocated (b : block_id_t) (block : ptr)
| Acquired (b : block_id_t) (block : ptr)
| Pending (b : block_id_t)
| Released (b : block_id_t) (dirty : bool) (new_id : block_id_t)
| Flushed
| ReadDone (b : block_id_t)
| WriteDone (b : block_id_t).

Definition step (e : event) : M observation :=
  match e with
  | Allocate tm =>
      r ← allocate tm;
      mret (Allocated r.2 r.1)
  | Acquire tm b state =>
      block ← acquire tm b state;
      mret (if is_null block then Pending b else Acquired b block)
  | Release tm b block dirty state =>
      new_id ← release tm b block dirty state;
      mret (Released b dirty new_id)
  | Flush i =>
      writeback_flush i ;;
      mret Flushed
  | Complete ctx block written =>
      b ← load ctx block_id;
      aio_complete ctx block written ;;
      mret (if written then WriteDone b else ReadDone b)
  end.

Fixpoint run (es : list event) : M (list observation) :=
  match es with
  | [] => mret []
  | e :: es' =>
      o ← step e;
      os ← run es';
      mret (o :: os)
  end.

Definition same_id (a b : block_id_t) : Z := if a =? b then 1%Z else 0%Z.

(** The references to [b] that transactions took and have not given back:
    an allocation, a synchronous acquire and a completed read each hand the
    block to a transaction, a release gives it back. *)
Definition held (b : block_id_t) (o : observation) : Z :=
  match o with
  | Allocated b' _ | Acquired b' _ | ReadDone b' => same_id b' b
  | Released b' _ _ => (- same_id b' b)%Z
  | _ => 0%Z
  end.

(** The writes of [b] that are owed: a dirty release owes one, a write
    completion settles one. *)
Definition write_owed (b : block_id_t) (o : observation) : Z :=
  match o with
  | Released b' true _ => same_id b' b
  | WriteDone b' => (- same_id b' b)%Z
  | _ => 0%Z
  end.

(** The reads of [b] in flight. *)
Definition read_owed (b : block_id_t) (o : observation) : Z :=
  match o with
  | Pending b' => same_id b' b
  | ReadDone b' => (- same_id b' b)%Z
  | _ => 0%Z
  end.

Definition total (f : observation -> Z) (os : list observation) : Z :=
  foldr (fun o acc => (f o + acc)%Z) 0%Z os.

(** ** Observers and well-formed worlds *)

Definition resident (w : world) (b : block_id_t) : ptr :=
  page_map_t.find b (page_map (cache w)).

Definition pins (w : world) (b : block_id_t) : Z :=
  page_repl_t.pin_count (page_repl (cache w)) b.

Definition reads_issued (w : world) : list io_request :=
  serializer_t.reads (serializer (cache w)).

Definition writes_issued (w : world) : list io_request :=
  serializer_t.writes (serializer (cache w)).

Definition next_id (w : world) : block_id_t :=
  serializer_t.next_block_id (serializer (cache w)).

Definition block_size (w : world) : N :=
  serializer_t.block_size (serializer (cache w)).

Definition heap_top (w : world) : ptr :=
  buffer_alloc_t.heap_top (buffer_alloc (cache w)).

Definition buffer_bytes (w : world) (p : ptr) : list byte :=
  buffer_alloc_t.contents (buffer_alloc (cache w)) p (block_size w).

(** The buffers being filled for [b]: the targets of the reads of [b] whose
    context is live. *)
Definition in_flight_buffers (w : world) (b : block_id_t) : list ptr :=
  io_buf <$>
    filter (fun r => io_block_id r = b /\ is_Some (contexts w !! io_ctx r))
           (reads_issued w).

(** What holds of every world the cache gets into when the identifiers it
    is asked for are the serializer's and the completions are those of the
    requests it issued: the allocators never hand out the null pointer,
    blocks have a size, and everything the cache knows of (resident
    buffers, pinned identifiers, requests, contexts, dirty blocks) came from
    the allocator and the serializer. *)
Record wf (w : world) : Prop := mk_wf {
  wf_heap : heap_top w <> NULL;
  wf_size : block_size w <> 0;
  wf_context_top : context_top w <> NULL;
  wf_page_map : forall b p, page_map (cache w) !! b = Some p ->
    b < next_id w /\ p <> NULL /\ p < heap_top w;
  wf_pins : forall b, pins w b <> 0%Z -> b < next_id w;
  wf_reads : forall r, r ∈ reads_issued w ->
    io_block_id r < next_id w /\ io_buf r <> NULL /\ io_buf r < heap_top w;
  wf_contexts : forall ctx c, contexts w !! ctx = Some c ->
    ctx < context_top w /\ block_id c < next_id w;
  wf_writeback : forall d, d ∈ writeback (cache w) ->
    dirty_block_id d < next_id w
}.

(** The events under which [wf] is kept: identifiers below the serializer's
    counter, and a read completion delivering the buffer of a read that was
    issued with that context. *)
Definition event_ok (w : world) (e : event) : Prop :=
  match e with
  | Allocate _ | Flush _ => True
  | Acquire _ b _ | Release _ b _ _ _ => b < next_id w
  | Complete ctx block written =>
      written = false ->
      exists r, r ∈ reads_issued w /\ io_ctx r = ctx /\ io_buf r = block
  end.

(** The events that respect the calling contract: an API call is made with
    the transaction of the current event queue, a completion is delivered
    for a live context on a thread that has an event queue. *)
Definition event_runs (w : world) (e : event) : Prop :=
  match e with
  | Allocate tm | Acquire tm _ _ | Release tm _ _ _ _ =>
      tm = cpu_event_queue w
  | Flush _ => True
  | Complete ctx _ _ =>
      is_Some (contexts w !! ctx) /\ cpu_event_queue w <> NULL
  end.

Fixpoint events_run (w : world) (es : list event) : Prop :=
  match es with
  | [] => True
  | e :: es' =>
      event_runs w e /\
      match step e w with
      | Done _ w' => events_run w' es'
      | _ => True
      end
  end.

Fixpoint events_ok (w : world) (es : list event) : Prop :=
  match es with
  | [] => True
  | e :: es' =>
      event_ok w e /\
      match step e w with
      | Done _ w' => events_ok w' es'
      | _ => True
      end
  end.

(** A cache as constructed, [mirrored_cache_t(_block_size, _max_size)], on a
    thread whose event queue is [q]; [next] is the first identifier the
    serializer has not given out (the store may hold blocks already), [top]
    and [arena] are the allocator's. *)
Definition initial_world (q : ptr) (size : N) (cow : bool) (next : block_id_t)
    (top : ptr) (arena : ptr -> byte) : world :=
  mk_world q ∅ 1
    (mk_cache (serializer_t.mk size next cow [] [])
              (buffer_alloc_t.mk top arena) ∅ ∅ []).

(** The same cache and contexts, reached from the thread whose event queue
    is [q]. *)
Definition on_event_queue (q : ptr) (w : world) : world :=
  mk_world q (contexts w) (context_top w) (cache w).

(** The world of an outcome, for chaining examples. *)
Definition world_of {A} (o : outcome A) (otherwise : world) : world :=
  match o with
  | Done _ w => w
  | _ => otherwise
  end.

(** ** Worlds for the examples *)

(** A cache of 4-byte blocks over a store that holds blocks 0 to 7, on the
    thread of event queue 1, with an in-place serializer and a zeroed
    arena. *)
Definition example_world : world :=
  initial_world 1 4 false 8 4096 (fun _ => x00).

(** The same with a copy-on-write serializer. *)
Definition cow_world : world :=
  initial_world 1 4 true 8 4096 (fun _ => x00).

(** The same with an arena that holds what earlier users left in it. *)
Definition stale_world : world :=
  initial_world 1 4 false 8 4096 (fun _ => xff).

(** [example_world] after block 7 was read in and released: resident and
    unpinned. *)
Definition warm_world : world :=
  world_of
    (run [Acquire 1 7 9; Complete 1 4096 false; Release 1 7 4096 false 9]
       example_world)
    example_world.

(** [example_world] after block 7 was read in for a transaction that still
    holds it: resident and pinned once. *)
Definition held_world : world :=
  world_of (run [Acquire 1 7 9; Complete 1 4096 false] example_world)
    example_world.

(** [example_world] after a miss on block 7: the read is in flight, keyed by
    context 1. *)
Definition pending_world : world :=
  world_of (acquire 1 7 9 example_world) example_world.

Definition warm_cow_world : world :=
  world_of
    (run [Acquire 1 7 9; Complete 1 4096 false; Release 1 7 4096 false 9]
       cow_world)
    cow_world.

(** ** What each operation computes *)

Ltac unfold_M :=
  cbv [mbind mret M_bind M_ret bind ret assert get_cpu_context_event_queue
       modify_cache serializer_gen_block_id serializer_block_size
       serializer_copy_on_write do_read do_write buffer_alloc_malloc
       page_map_find page_map_set page_repl_pin page_repl_unpin
       new_aio_context load store store_user_state store_block_id
       store_event_queue delete_aio_context].

Ltac unfold_M_in H :=
  cbv [mbind mret M_bind M_ret bind ret assert get_cpu_context_event_queue
       modify_cache serializer_gen_block_id serializer_block_size
       serializer_copy_on_write do_read do_write buffer_alloc_malloc
       page_map_find page_map_set page_repl_pin page_repl_unpin
       new_aio_context load store store_user_state store_block_id
       store_event_queue delete_aio_context] in H.

Ltac run_stores :=
  repeat (progress (cbn; rewrite ?lookup_insert_eq));
  cbv [set_contexts set_cache set_serializer set_buffer_alloc set_page_map
       set_page_repl set_writeback];
  cbn; rewrite ?insert_insert_eq, ?delete_insert_eq.

Lemma is_null_true p : is_null p = true <-> p = NULL.
Proof. unfold is_null. apply N.eqb_eq. Qed.

Lemma is_null_false p : is_null p = false <-> p <> NULL.
Proof. unfold is_null. apply N.eqb_neq. Qed.

Lemma allocate_eq tm w :
  allocate tm w =
  if tm =? cpu_event_queue w then
    Done (heap_top w, next_id w)
      (set_cache (fun c =>
         mk_cache (serializer_t.gen_block_id (serializer c)).2
                  (buffer_alloc_t.malloc (block_size w) (buffer_alloc c)).2
                  (page_map_t.set (next_id w) (heap_top w) (page_map c))
                  (page_repl_t.pin (next_id w) (page_repl c))
                  (writeback c)) w)
  else AssertionFailed.
Proof.
  unfold allocate. unfold_M.
  destruct (tm =? cpu_event_queue w); reflexivity.
Qed.

Lemma acquire_eq tm b state w :
  acquire tm b state w =
  if tm =? cpu_event_queue w then
    if is_null (resident w b) then
      Done (resident w b)
        (mk_world (cpu_event_queue w)
           (<[context_top w := mk_aio_context state b tm]> (contexts w))
           (N.succ (context_top w))
           (mk_cache
              (serializer_t.do_read tm b (heap_top w) (context_top w)
                 (serializer (cache w)))
              (buffer_alloc_t.malloc (block_size w) (buffer_alloc (cache w))).2
              (page_map (cache w)) (page_repl (cache w))
              (writeback (cache w))))
    else
      Done (resident w b) (set_cache (set_page_repl (page_repl_t.pin b)) w)
  else AssertionFailed.
Proof.
  unfold acquire, resident. unfold_M.
  destruct (tm =? cpu_event_queue w); [|reflexivity].
  destruct (is_null _); [|reflexivity].
  run_stores. reflexivity.
Qed.

Lemma mark_dirty_eq tm b block state w :
  writeback_mark_dirty tm b block state w =
  let cow := serializer_t.copy_on_write (serializer (cache w)) in
  let target := if cow then next_id w else b in
  Done target
    (set_cache (fun c =>
       mk_cache (if cow then (serializer_t.gen_block_id (serializer c)).2
                 else serializer c)
                (buffer_alloc c) (page_map c) (page_repl c)
                (writeback c ++ [mk_dirty_block tm b target block state])) w).
Proof.
  unfold writeback_mark_dirty. unfold_M.
  destruct w as [q cs top [s a pm pr wb]]; cbn.
  destruct (serializer_t.copy_on_write s); reflexivity.
Qed.

Lemma release_eq tm b block dirty state w :
  release tm b block dirty state w =
  if tm =? cpu_event_queue w then
    if dirty then writeback_mark_dirty tm b block state w
    else Done b (set_cache (set_page_repl (page_repl_t.unpin b)) w)
  else AssertionFailed.
Proof.
  unfold release. unfold_M.
  destruct (tm =? cpu_event_queue w); [|reflexivity].
  destruct dirty; reflexivity.
Qed.

Lemma flush_eq i w :
  writeback_flush i w =
  match writeback (cache w) !! i with
  | None => Done tt w
  | Some e =>
      Done tt
        (mk_world (cpu_event_queue w)
           (<[context_top w :=
                mk_aio_context (dirty_state e) (dirty_block_id e) (dirty_tm e)]>
              (contexts w))
           (N.succ (context_top w))
           (mk_cache
              (serializer_t.do_write (dirty_tm e) (dirty_target_id e)
                 (dirty_buf e) (context_top w) (serializer (cache w)))
              (buffer_alloc (cache w)) (page_map (cache w))
              (page_repl (cache w)) (delete i (writeback (cache w)))))
  end.
Proof.
  unfold writeback_flush.
  destruct (writeback (cache w) !! i) as [e|]; [|reflexivity].
  unfold_M. run_stores. reflexivity.
Qed.

Lemma aio_complete_eq ctx block written w :
  aio_complete ctx block written w =
  match contexts w !! ctx with
  | None => Undefined
  | Some c =>
      if is_null (cpu_event_queue w) then AssertionFailed
      else
        Done tt
          (mk_world (cpu_event_queue w) (delete ctx (contexts w))
             (context_top w)
             (if written
              then set_page_repl (page_repl_t.unpin (block_id c)) (cache w)
              else set_page_repl (page_repl_t.pin (block_id c))
                     (set_page_map (page_map_t.set (block_id c) block)
                        (cache w))))
  end.
Proof.
  unfold aio_complete. unfold_M.
  destruct (contexts w !! ctx) as [c|] eqn:Hc; [|reflexivity].
  cbn. destruct (is_null (cpu_event_queue w)); [reflexivity|].
  run_stores. destruct written; reflexivity.
Qed.

(** ** Pin counts *)

Lemma pin_count_pin b b' m :
  page_repl_t.pin_count (page_repl_t.pin b m) b' =
  (page_repl_t.pin_count m b' + same_id b b')%Z.
Proof.
  unfold page_repl_t.pin, same_id. unfold page_repl_t.pin_count at 1.
  destruct (N.eqb_spec b b') as [->|Hne].
  - rewrite lookup_insert_eq. reflexivity.
  - rewrite lookup_insert_ne by done. unfold page_repl_t.pin_count. cbn. lia.
Qed.

Lemma pin_count_unpin b b' m :
  page_repl_t.pin_count (page_repl_t.unpin b m) b' =
  (page_repl_t.pin_count m b' - same_id b b')%Z.
Proof.
  unfold page_repl_t.unpin, same_id. unfold page_repl_t.pin_count at 1.
  destruct (N.eqb_spec b b') as [->|Hne].
  - rewrite lookup_insert_eq. reflexivity.
  - rewrite lookup_insert_ne by done. unfold page_repl_t.pin_count. cbn. lia.
Qed.

Lemma same_id_refl b : same_id b b = 1%Z.
Proof. unfold same_id. rewrite N.eqb_refl. reflexivity. Qed.

Lemma same_id_ne a b : a <> b -> same_id a b = 0%Z.
Proof. unfold same_id. intros H. apply N.eqb_neq in H. rewrite H. reflexivity. Qed.

(** Taking apart [step e w = Done o w']. *)
Ltac step_inv H :=
  unfold step in H; unfold_M_in H;
  rewrite ?allocate_eq, ?acquire_eq, ?release_eq, ?mark_dirty_eq, ?flush_eq,
    ?aio_complete_eq in H;
  cbv beta iota zeta in H;
  repeat (let E := fresh "E" in
          match type of H with
          | context [if ?c then _ else _] => destruct c eqn:E
          | context [match ?x with Some _ => _ | None => _ end] =>
              destruct x eqn:E
          end;
          cbv beta iota zeta in H;
          rewrite ?aio_complete_eq in H;
          try rewrite E in H;
          cbv beta iota zeta in H);
  try discriminate H.

(** One event changes the pin count of [b] by what it hands to a
    transaction or takes back, and by the write it leaves owed or settles. *)
Lemma step_pins e w o w' b :
  step e w = Done o w' ->
  pins w' b = (pins w b + held b o + write_owed b o)%Z.
Proof.
  intros H. destruct e; step_inv H; injection H as <- <-; unfold pins; cbn;
    rewrite ?pin_count_pin, ?pin_count_unpin; lia.
Qed.

Lemma run_pins es : forall w os w' b,
  run es w = Done os w' ->
  pins w' b =
  (pins w b + total (held b) os + total (write_owed b) os)%Z.
Proof.
  induction es as [|e es IH]; intros w os w' b H.
  - injection H as <- <-. cbn. lia.
  - cbn in H. unfold mbind, M_bind, bind in H.
    destruct (step e w) as [o w1| |] eqn:Hstep; try discriminate H.
    destruct (run es w1) as [os1 w2| |] eqn:Hrun; try discriminate H.
    injection H as <- <-.
    rewrite (IH _ _ _ b Hrun), (step_pins _ _ _ _ b Hstep).
    unfold total. cbn. lia.
Qed.

(** Events that respect the calling contract run to their end. *)
Lemma step_runs e w :
  event_runs w e -> exists o w', step e w = Done o w'.
Proof.
  intros Hruns. destruct e; cbn in Hruns; unfold step; unfold_M.
  - rewrite allocate_eq, Hruns, N.eqb_refl. eauto.
  - rewrite acquire_eq, Hruns, N.eqb_refl.
    destruct (is_null (resident w b)); eauto.
  - rewrite release_eq, Hruns, N.eqb_refl.
    destruct dirty; [rewrite mark_dirty_eq|]; eauto.
  - rewrite flush_eq. destruct (writeback (cache w) !! i); eauto.
  - destruct Hruns as [[c Hc] Hq]. rewrite Hc, aio_complete_eq, Hc.
    apply is_null_false in Hq. rewrite Hq. eauto.
Qed.

Lemma run_runs es : forall w,
  events_run w es -> exists os w', run es w = Done os w'.
Proof.
  induction es as [|e es IH]; intros w Hruns.
  - eexists _, _. reflexivity.
  - cbn in Hruns. destruct Hruns as [He Hrest].
    destruct (step_runs _ _ He) as (o & w1 & Hstep). rewrite Hstep in Hrest.
    destruct (IH _ Hrest) as (os & w2 & Hrun).
    exists (o :: os), w2. cbn. unfold mbind, M_bind, bind.
    rewrite Hstep, Hrun. reflexivity.
Qed.

(** ** Well-formed worlds *)

Lemma wf_initial q size cow next top arena :
  size <> 0 -> top <> NULL -> wf (initial_world q size cow next top arena).
Proof.
  intros Hsize Htop. constructor; cbn; try done.
  - intros r H. inversion H.
  - intros d H. inversion H.
Qed.

Ltac unfold_obs :=
  unfold pins, resident, reads_issued, writes_issued, next_id, block_size,
    heap_top, page_map_t.set in *.

Lemma pin_count_pin_nonzero b b' m :
  page_repl_t.pin_count (page_repl_t.pin b m) b' <> 0%Z ->
  b' = b \/ page_repl_t.pin_count m b' <> 0%Z.
Proof.
  rewrite pin_count_pin. unfold same_id.
  destruct (N.eqb_spec b b'); [auto|]. intros H. right. lia.
Qed.

Lemma pin_count_unpin_nonzero b b' m :
  page_repl_t.pin_count (page_repl_t.unpin b m) b' <> 0%Z ->
  b' = b \/ page_repl_t.pin_count m b' <> 0%Z.
Proof.
  rewrite pin_count_unpin. unfold same_id.
  destruct (N.eqb_spec b b'); [auto|]. intros H. right. lia.
Qed.

Ltac wf_step :=
  match goal with
  | H : <[_:=_]> _ !! _ = Some _ |- _ =>
      apply lookup_insert_Some in H; destruct H as [[<- <-]|[? H]]
  | H : delete _ _ !! _ = Some _ |- _ =>
      apply lookup_delete_Some in H; destruct H as [? H]
  | H : _ ∈ _ ++ [_] |- _ =>
      apply elem_of_app in H; destruct H as [H|H];
      [|apply list_elem_of_singleton in H; subst]
  | H : _ ∈ delete _ _ |- _ => apply list_elem_of_delete_inv in H
  | H : page_repl_t.pin_count (page_repl_t.pin _ _) _ <> 0%Z |- _ =>
      apply pin_count_pin_nonzero in H; destruct H as [->|H]
  | H : page_repl_t.pin_count (page_repl_t.unpin _ _) _ <> 0%Z |- _ =>
      apply pin_count_unpin_nonzero in H; destruct H as [->|H]
  | Hall : forall b p, _ !! b = Some p -> _, H : _ !! _ = Some _ |- _ =>
      pose proof (Hall _ _ H); clear H
  | Hall : forall b, _ <> 0%Z -> _, H : _ <> 0%Z |- _ =>
      pose proof (Hall _ H); clear H
  | Hall : forall r, r ∈ _ -> _, H : _ ∈ _ |- _ =>
      pose proof (Hall _ H); clear H
  end.

Lemma step_wf e w o w' :
  wf w -> event_ok w e -> step e w = Done o w' -> wf w'.
Proof.
  intros [Hheap Hsize Htop Hpm Hpins Hreads Hctx Hwb] Hok H.
  destruct e; step_inv H; injection H as <- <-.
  all: try match goal with
           | E : writeback _ !! _ = Some _ |- _ =>
               apply list_elem_of_lookup_2 in E
           end.
  all: cbn in Hok.
  all: try match goal with
           | H : false = false -> _ |- _ =>
               destruct (H eq_refl) as (r & Hr & <- & <-)
           end.
  all: constructor; cbn in *; unfold_obs; cbn in *.
  all: try done; unfold NULL in *; try lia.
  all: intros; repeat wf_step; cbn; lia.
Qed.

Lemma run_wf es : forall w os w',
  wf w -> events_ok w es -> run es w = Done os w' -> wf w'.
Proof.
  induction es as [|e es IH]; intros w os w' Hwf Hok H.
  - injection H as <- <-. exact Hwf.
  - cbn in H, Hok. unfold mbind, M_bind, bind in H.
    destruct Hok as [Hok Hrest].
    destruct (step e w) as [o w1| |] eqn:Hstep; try discriminate H.
    destruct (run es w1) as [os1 w2| |] eqn:Hrun; try discriminate H.
    injection H as <- <-.
    eapply IH; [|exact Hrest|exact Hrun]. eapply step_wf; eauto.
Qed.

(** ** The page map holds one entry per identifier *)

Lemma filter_key_length {V} (b : N) (l : list (N * V)) :
  NoDup (l.*1) ->
  length (filter (fun kv => kv.1 = b) l) =
  if decide (b ∈ l.*1) then 1%nat else 0%nat.
Proof.
  induction l as [|[k v] l IH]; intros Hnd.
  - cbn. destruct (decide (b ∈ [])) as [H|H]; [inversion H|reflexivity].
  - cbn in Hnd. apply NoDup_cons in Hnd as [Hk Hnd].
    rewrite filter_cons. cbn. specialize (IH Hnd).
    destruct (decide (k = b)) as [->|Hne].
    + cbn. rewrite IH.
      destruct (decide (b ∈ l.*1)); [contradiction|].
      destruct (decide (b ∈ b :: l.*1)) as [|Hn]; [reflexivity|].
      exfalso. apply Hn. left.
    + rewrite IH.
      destruct (decide (b ∈ l.*1)) as [Hin|Hin];
        destruct (decide (b ∈ k :: l.*1)) as [Hin'|Hin']; try reflexivity.
      * exfalso. apply Hin'. right. exact Hin.
      * exfalso. apply elem_of_cons in Hin' as [->|Hin']; contradiction.
Qed.

Lemma entries_lookup b (m : gmap block_id_t ptr) :
  page_map_t.entries b m =
  match m !! b with Some _ => 1%nat | None => 0%nat end.
Proof.
  unfold page_map_t.entries.
  rewrite filter_key_length by apply NoDup_fst_map_to_list.
  case_decide as Hin.
  - apply list_elem_of_fmap in Hin as [[k v] [Heq Hin]].
    cbn in Heq. subst b.
    apply elem_of_map_to_list in Hin. rewrite Hin. reflexivity.
  - destruct (m !! b) as [p|] eqn:Hb; [|reflexivity].
    exfalso. apply Hin. apply list_elem_of_fmap. exists (b, p).
    split; [reflexivity|]. apply elem_of_map_to_list. exact Hb.
Qed.

Lemma entries_le_1 b (m : gmap block_id_t ptr) :
  (page_map_t.entries b m <= 1)%nat.
Proof. rewrite entries_lookup. destruct (m !! b); lia. Qed.

Lemma entries_set b p (m : gmap block_id_t ptr) :
  page_map_t.entries b (page_map_t.set b p m) = 1%nat.
Proof.
  rewrite entries_lookup. unfold page_map_t.set.
  rewrite lookup_insert_eq. reflexivity.
Qed.

(** ** The two branches of [acquire] *)

Lemma acquire_hit_eq tm b state w :
  tm = cpu_event_queue w ->
  resident w b <> NULL ->
  acquire tm b state w =
  Done (resident w b) (set_cache (set_page_repl (page_repl_t.pin b)) w).
Proof.
  intros -> Hres. rewrite acquire_eq, N.eqb_refl.
  apply is_null_false in Hres. rewrite Hres. reflexivity.
Qed.

Lemma acquire_miss_eq tm b state w :
  tm = cpu_event_queue w ->
  resident w b = NULL ->
  acquire tm b state w =
  Done NULL
    (mk_world (cpu_event_queue w)
       (<[context_top w := mk_aio_context state b tm]> (contexts w))
       (N.succ (context_top w))
       (mk_cache
          (serializer_t.do_read tm b (heap_top w) (context_top w)
             (serializer (cache w)))
          (buffer_alloc_t.malloc (block_size w) (buffer_alloc (cache w))).2
          (page_map (cache w)) (page_repl (cache w)) (writeback (cache w)))).
Proof.
  intros -> Hres. rewrite acquire_eq, N.eqb_refl.
  rewrite (proj2 (is_null_true _) Hres), Hres. reflexivity.
Qed.

Lemma pins_other b b' m :
  b' <> b ->
  page_repl_t.pin_count (page_repl_t.pin b m) b' = page_repl_t.pin_count m b'.
Proof.
  intros H. rewrite pin_count_pin, same_id_ne by congruence. lia.
Qed.

Lemma unpins_other b b' m :
  b' <> b ->
  page_repl_t.pin_count (page_repl_t.unpin b m) b' =
  page_repl_t.pin_count m b'.
Proof.
  intros H. rewrite pin_count_unpin, same_id_ne by congruence. lia.
Qed.

(** ** The claims *)

(** C5: when the page map has a resident buffer for the identifier,
    [acquire] pins that identifier and returns the mapped buffer at once.
    It issues no read and creates no [aio_context]: but for the pin, the
    world is the one it was called in. *)
Theorem acquire_resident tm b state w :
  tm = cpu_event_queue w ->
  resident w b <> NULL ->
  exists w',
    acquire tm b state w = Done (resident w b) w' /\
    w' = set_cache (set_page_repl (page_repl_t.pin b)) w /\
    pins w' b = (pins w b + 1)%Z /\
    (forall b', b' <> b -> pins w' b' = pins w b') /\
    page_map (cache w') = page_map (cache w) /\
    reads_issued w' = reads_issued w /\
    writes_issued w' = writes_issued w /\
    contexts w' = contexts w /\
    context_top w' = context_top w /\
    heap_top w' = heap_top w.
Proof.
  intros Htm Hres. eexists. split; [apply acquire_hit_eq; assumption|].
  split; [reflexivity|]. unfold pins. cbn.
  rewrite pin_count_pin, same_id_refl.
  repeat split; try reflexivity. intros b' Hne. apply pins_other, Hne.
Qed.

(** C9: on an identifier absent from the page map [acquire] returns the null
    pointer, and on a resident one it does not.  In the absent case the page
    map and the pin counts are left as they were: the buffer just allocated
    is registered under no identifier and the block is not pinned. *)
Theorem acquire_absent_returns_null tm b state w :
  tm = cpu_event_queue w ->
  wf w ->
  (resident w b = NULL ->
   exists w',
     acquire tm b state w = Done NULL w' /\
     page_map (cache w') = page_map (cache w) /\
     page_repl (cache w') = page_repl (cache w) /\
     resident w' b = NULL /\
     (forall b', pins w' b' = pins w b') /\
     (forall b', page_map (cache w') !! b' <> Some (heap_top w))) /\
  (resident w b <> NULL ->
   exists p w', acquire tm b state w = Done p w' /\ p <> NULL).
Proof.
  intros Htm Hwf. split; intros Hres.
  - eexists. split; [apply acquire_miss_eq; assumption|]. cbn.
    repeat split; try reflexivity; try assumption.
    intros b' Hb'. apply (wf_page_map _ Hwf) in Hb'. lia.
  - eexists _, _. split; [apply acquire_hit_eq; assumption|]. exact Hres.
Qed.

(** C2: a clean [release] unpins the block and returns the identifier it was
    given.  A dirty [release] is the writeback's [mark_dirty]: the block is
    handed to it, no pin count changes, and the identifier returned is the
    one [mark_dirty] returns, which is a new one when the serializer is
    copy-on-write. *)
Theorem release_clean_or_dirty tm b block dirty state w :
  tm = cpu_event_queue w ->
  (dirty = false ->
   exists w',
     release tm b block dirty state w = Done b w' /\
     w' = set_cache (set_page_repl (page_repl_t.unpin b)) w /\
     pins w' b = (pins w b - 1)%Z /\
     (forall b', b' <> b -> pins w' b' = pins w b') /\
     page_map (cache w') = page_map (cache w) /\
     writeback (cache w') = writeback (cache w)) /\
  (dirty = true ->
   release tm b block dirty state w =
     writeback_mark_dirty tm b block state w /\
   exists new_id w',
     release tm b block dirty state w = Done new_id w' /\
     new_id =
       (if serializer_t.copy_on_write (serializer (cache w))
        then next_id w else b) /\
     writeback (cache w') =
       writeback (cache w) ++ [mk_dirty_block tm b new_id block state] /\
     page_repl (cache w') = page_repl (cache w) /\
     (forall b', pins w' b' = pins w b') /\
     page_map (cache w') = page_map (cache w)).
Proof.
  intros Htm. split; intros ->.
  - rewrite release_eq, Htm, N.eqb_refl. eexists. split; [reflexivity|].
    split; [reflexivity|]. unfold pins. cbn.
    rewrite pin_count_unpin, same_id_refl.
    repeat split; try reflexivity. intros b' Hne. apply unpins_other, Hne.
  - rewrite release_eq, Htm, N.eqb_refl. split; [reflexivity|].
    rewrite mark_dirty_eq. cbn. eexists _, _. split; [reflexivity|].
    repeat split; reflexivity.
Qed.

Ltac simpl_world :=
  cbn -[page_repl_t.pin page_repl_t.unpin page_repl_t.pin_count
        page_map_t.set page_map_t.find page_map_t.entries].

Lemma find_set b p (m : gmap block_id_t ptr) :
  page_map_t.find b (page_map_t.set b p m) = p.
Proof.
  unfold page_map_t.find, page_map_t.set. rewrite lookup_insert_eq.
  reflexivity.
Qed.

Lemma wf_context_top_free w : wf w -> contexts w !! context_top w = None.
Proof.
  intros Hwf. destruct (contexts w !! context_top w) as [c|] eqn:Hc; [|done].
  apply (wf_contexts _ Hwf) in Hc. lia.
Qed.

Lemma wf_next_id_absent w : wf w -> page_map (cache w) !! next_id w = None.
Proof.
  intros Hwf. destruct (page_map (cache w) !! next_id w) as [p|] eqn:Hp; [|done].
  apply (wf_page_map _ Hwf) in Hp. lia.
Qed.

Lemma wf_next_id_unpinned w : wf w -> pins w (next_id w) = 0%Z.
Proof.
  intros Hwf. destruct (Z.eq_dec (pins w (next_id w)) 0%Z) as [H|H]; [done|].
  apply (wf_pins _ Hwf) in H. lia.
Qed.

Lemma aio_complete_read_eq ctx c block w :
  contexts w !! ctx = Some c ->
  cpu_event_queue w <> NULL ->
  aio_complete ctx block false w =
  Done tt
    (mk_world (cpu_event_queue w) (delete ctx (contexts w)) (context_top w)
       (set_page_repl (page_repl_t.pin (block_id c))
          (set_page_map (page_map_t.set (block_id c) block) (cache w)))).
Proof.
  intros Hc Hq. rewrite aio_complete_eq, Hc.
  apply is_null_false in Hq. rewrite Hq. reflexivity.
Qed.

Lemma aio_complete_written_eq ctx c block w :
  contexts w !! ctx = Some c ->
  cpu_event_queue w <> NULL ->
  aio_complete ctx block true w =
  Done tt
    (mk_world (cpu_event_queue w) (delete ctx (contexts w)) (context_top w)
       (set_page_repl (page_repl_t.unpin (block_id c)) (cache w))).
Proof.
  intros Hc Hq. rewrite aio_complete_eq, Hc.
  apply is_null_false in Hq. rewrite Hq. reflexivity.
Qed.

(** C1: on an identifier absent from the page map, one call of [acquire]
    issues one read and nothing else: the read goes into a buffer just taken
    from the allocator, of the block size, and is keyed by a new
    [aio_context] holding the caller's state, the identifier and the current
    event queue.  Delivering that read's completion, in any later world where
    the context is still live, puts the buffer into the page map under the
    identifier, as its one entry, and raises the pin count by one. *)
Theorem acquire_miss_then_fill tm b state w :
  tm = cpu_event_queue w ->
  tm <> NULL ->
  wf w ->
  resident w b = NULL ->
  exists w1,
    acquire tm b state w = Done NULL w1 /\
    reads_issued w1 =
      reads_issued w ++ [mk_io_request tm b (heap_top w) (context_top w)] /\
    writes_issued w1 = writes_issued w /\
    heap_top w1 = heap_top w + block_size w /\
    (forall r, r ∈ reads_issued w -> io_buf r <> heap_top w) /\
    (forall b' p, page_map (cache w) !! b' = Some p -> p <> heap_top w) /\
    contexts w !! context_top w = None /\
    contexts w1 =
      <[context_top w := mk_aio_context state b (cpu_event_queue w)]>
        (contexts w) /\
    cpu_event_queue w1 = cpu_event_queue w /\
    forall w',
      contexts w' !! context_top w = contexts w1 !! context_top w ->
      cpu_event_queue w' <> NULL ->
      exists w2,
        aio_complete (context_top w) (heap_top w) false w' = Done tt w2 /\
        page_map (cache w2) = <[b := heap_top w]> (page_map (cache w')) /\
        resident w2 b = heap_top w /\
        page_map_t.entries b (page_map (cache w2)) = 1%nat /\
        pins w2 b = (pins w' b + 1)%Z /\
        (forall b', b' <> b -> pins w2 b' = pins w' b') /\
        contexts w2 = delete (context_top w) (contexts w') /\
        reads_issued w2 = reads_issued w' /\
        writes_issued w2 = writes_issued w'.
Proof.
  intros Htm Hnull Hwf Hres. eexists.
  split; [apply acquire_miss_eq; assumption|]. cbn.
  split; [reflexivity|]. split; [reflexivity|]. split; [reflexivity|].
  split. { intros r Hr. apply (wf_reads _ Hwf) in Hr. lia. }
  split. { intros b' p Hp. apply (wf_page_map _ Hwf) in Hp. lia. }
  split; [apply wf_context_top_free, Hwf|].
  split; [rewrite Htm; reflexivity|]. split; [reflexivity|].
  intros w' Hctx Hq. rewrite lookup_insert_eq in Hctx.
  eexists. split; [eapply aio_complete_read_eq; eassumption|].
  unfold pins, resident. simpl_world.
  rewrite find_set, entries_set, pin_count_pin, same_id_refl.
  repeat split; try reflexivity. intros b' Hne. apply pins_other, Hne.
Qed.

(** C4, as the code has it: [allocate] takes the identifier the serializer
    generates, which the cache has not seen, and a buffer of the block size
    from the allocator, whose bytes it leaves as the allocator handed them
    over; it registers the buffer in the page map under that identifier, as
    its one entry and under no other identifier, and pins it. *)
Theorem allocate_registers_and_pins tm w :
  tm = cpu_event_queue w ->
  wf w ->
  exists block id w',
    allocate tm w = Done (block, id) w' /\
    id = next_id w /\
    next_id w' = N.succ id /\
    page_map (cache w) !! id = None /\
    block = heap_top w /\
    block <> NULL /\
    heap_top w' = block + block_size w /\
    length (buffer_bytes w' block) = N.to_nat (block_size w) /\
    buffer_bytes w' block = buffer_bytes w block /\
    page_map (cache w') = <[id := block]> (page_map (cache w)) /\
    resident w' id = block /\
    page_map_t.entries id (page_map (cache w')) = 1%nat /\
    (forall b', page_map (cache w') !! b' = Some block -> b' = id) /\
    pins w' id = 1%Z /\
    (forall b', b' <> id -> pins w' b' = pins w b').
Proof.
  intros Htm Hwf. eexists _, _, _.
  split; [rewrite allocate_eq, Htm, N.eqb_refl; reflexivity|].
  split; [reflexivity|]. split; [reflexivity|].
  split; [apply wf_next_id_absent, Hwf|]. split; [reflexivity|].
  split; [apply (wf_heap _ Hwf)|]. split; [reflexivity|].
  split.
  { unfold buffer_bytes, buffer_alloc_t.contents.
    rewrite length_map, length_seq. reflexivity. }
  split; [reflexivity|]. split; [reflexivity|].
  unfold pins, resident. simpl_world.
  rewrite find_set, entries_set, pin_count_pin, same_id_refl.
  split; [reflexivity|]. split; [reflexivity|].
  split.
  { unfold page_map_t.set. intros b' Hb'.
    apply lookup_insert_Some in Hb' as [[? _]|[_ Hb']]; [done|].
    apply (wf_page_map _ Hwf) in Hb'. unfold heap_top in Hb'. lia. }
  split.
  { change (page_repl_t.pin_count (page_repl (cache w)) (next_id w))
      with (pins w (next_id w)).
    rewrite wf_next_id_unpinned by exact Hwf. reflexivity. }
  intros b' Hne. apply pins_other, Hne.
Qed.

(** C7: [allocate] followed at once by a clean [release] leaves the block in
    the page map with pin count zero, and an [acquire] of its identifier
    then returns the same buffer, with no read or write issued and no
    [aio_context] made. *)
Theorem allocate_release_acquire tm state state' w :
  tm = cpu_event_queue w ->
  wf w ->
  exists block id w1 w2 w3,
    allocate tm w = Done (block, id) w1 /\
    release tm id block false state w1 = Done id w2 /\
    block <> NULL /\
    resident w2 id = block /\
    pins w2 id = 0%Z /\
    acquire tm id state' w2 = Done block w3 /\
    reads_issued w3 = reads_issued w /\
    writes_issued w3 = writes_issued w /\
    contexts w3 = contexts w /\
    context_top w3 = context_top w /\
    resident w3 id = block.
Proof.
  intros -> Hwf.
  pose proof (wf_heap _ Hwf) as Hheap.
  pose proof (wf_next_id_unpinned _ Hwf) as Hpin.
  eexists _, _, _, _, _.
  split; [rewrite allocate_eq, N.eqb_refl; reflexivity|].
  split; [rewrite release_eq; cbn; rewrite N.eqb_refl; reflexivity|].
  split; [exact Hheap|].
  split; [unfold resident; simpl_world; apply find_set|].
  split.
  { unfold pins in *. simpl_world.
    rewrite pin_count_unpin, pin_count_pin, same_id_refl. lia. }
  split.
  { rewrite acquire_hit_eq.
    - unfold resident. simpl_world. rewrite find_set. reflexivity.
    - reflexivity.
    - unfold resident. simpl_world. rewrite find_set. exact Hheap. }
  simpl_world. repeat split; try reflexivity. unfold resident. simpl_world.
  apply find_set.
Qed.

Lemma flush_last_eq wb d w :
  writeback (cache w) = wb ++ [d] ->
  writeback_flush (length wb) w =
  Done tt
    (mk_world (cpu_event_queue w)
       (<[context_top w :=
            mk_aio_context (dirty_state d) (dirty_block_id d) (dirty_tm d)]>
          (contexts w))
       (N.succ (context_top w))
       (mk_cache
          (serializer_t.do_write (dirty_tm d) (dirty_target_id d)
             (dirty_buf d) (context_top w) (serializer (cache w)))
          (buffer_alloc (cache w)) (page_map (cache w))
          (page_repl (cache w)) wb)).
Proof.
  intros Hwb. rewrite flush_eq, Hwb.
  rewrite list_lookup_middle by reflexivity.
  rewrite delete_middle, app_nil_r. reflexivity.
Qed.

Lemma end_transaction_eq transaction w :
  end_transaction transaction w =
  if transaction =? cpu_event_queue w then Done tt w else AssertionFailed.
Proof. reflexivity. Qed.

(** With a live context and a current event queue, the assertion of
    [aio_complete] passes, whichever event queue the context recorded. *)
Lemma aio_complete_assertion_passes ctx c block written w :
  contexts w !! ctx = Some c ->
  cpu_event_queue w <> NULL ->
  exists w', aio_complete ctx block written w = Done tt w'.
Proof.
  intros Hc Hq. rewrite aio_complete_eq, Hc.
  apply is_null_false in Hq. rewrite Hq. eexists. reflexivity.
Qed.

(** C10: a write completion destroys the context and unpins the context's
    identifier, and that is all it does; the page map is as it was.  So when
    a dirty release on a copy-on-write serializer has returned a new
    identifier and the write has completed, the buffer is still in the page
    map under the identifier it was released with, and the new identifier
    has no entry. *)
Theorem write_completion_keeps_page_map :
  (forall w ctx c block,
     contexts w !! ctx = Some c ->
     cpu_event_queue w <> NULL ->
     aio_complete ctx block true w =
     Done tt
       (mk_world (cpu_event_queue w) (delete ctx (contexts w)) (context_top w)
          (mk_cache (serializer (cache w)) (buffer_alloc (cache w))
             (page_map (cache w))
             (page_repl_t.unpin (block_id c) (page_repl (cache w)))
             (writeback (cache w))))) /\
  (forall w tm b block state,
     tm = cpu_event_queue w ->
     tm <> NULL ->
     wf w ->
     page_map (cache w) !! b = Some block ->
     serializer_t.copy_on_write (serializer (cache w)) = true ->
     exists new_id w1 w2 w3,
       release tm b block true state w = Done new_id w1 /\
       new_id <> b /\
       writeback_flush (length (writeback (cache w))) w1 = Done tt w2 /\
       writes_issued w2 =
         writes_issued w ++ [mk_io_request tm new_id block (context_top w)] /\
       contexts w2 !! context_top w = Some (mk_aio_context state b tm) /\
       aio_complete (context_top w) block true w2 = Done tt w3 /\
       page_map (cache w3) = page_map (cache w) /\
       resident w3 b = block /\
       page_map (cache w3) !! new_id = None /\
       resident w3 new_id = NULL /\
       pins w3 b = (pins w b - 1)%Z).
Proof.
  split.
  - intros w ctx c block Hc Hq.
    rewrite (aio_complete_written_eq _ _ _ _ Hc Hq). reflexivity.
  - intros w tm b block state -> Hq Hwf Hb Hcow.
    pose proof (wf_next_id_absent _ Hwf) as Hnew.
    eexists _, _, _, _.
    split.
    { rewrite release_eq, N.eqb_refl, mark_dirty_eq, Hcow. reflexivity. }
    split. { apply (wf_page_map _ Hwf) in Hb. lia. }
    split. { erewrite flush_last_eq by reflexivity. reflexivity. }
    split; [reflexivity|].
    split; [simpl_world; apply lookup_insert_eq|].
    split.
    { erewrite aio_complete_written_eq; [reflexivity| |exact Hq].
      simpl_world. apply lookup_insert_eq. }
    unfold resident, pins, page_map_t.find. simpl_world.
    rewrite Hb, pin_count_unpin, same_id_refl, Hnew.
    repeat split; reflexivity.
Qed.

Ltac pins_done Hpin :=
  unfold pins in *; simpl_world;
  rewrite ?pin_count_unpin, ?pin_count_pin, ?same_id_refl, ?Hpin;
  first [reflexivity | lia].

(** C3: a resident, unpinned block that is acquired and released dirty is
    pinned after the release and still pinned when the writeback has issued
    its write; the completion of that write brings the pin count to zero.
    Over any sequence of events, the pin count of an identifier changes by
    the references handed to transactions and not yet released plus the
    writes owed; it is back at zero when every reference has been released
    and no write or read of the identifier is owed.  The sequences are those
    that respect the calling contract, and they run to their end. *)
Theorem pins_return_to_zero :
  (forall tm b state state' w,
     tm = cpu_event_queue w ->
     tm <> NULL ->
     resident w b <> NULL ->
     pins w b = 0%Z ->
     exists new_id w1 w2 w3 w4,
       acquire tm b state w = Done (resident w b) w1 /\
       release tm b (resident w b) true state' w1 = Done new_id w2 /\
       pins w2 b = 1%Z /\
       writeback_flush (length (writeback (cache w))) w2 = Done tt w3 /\
       writes_issued w3 =
         writes_issued w ++
         [mk_io_request tm new_id (resident w b) (context_top w)] /\
       pins w3 b = 1%Z /\
       aio_complete (context_top w) (resident w b) true w3 = Done tt w4 /\
       pins w4 b = 0%Z /\
       reads_issued w4 = reads_issued w /\
       writes_issued w4 = writes_issued w3 /\
       writeback (cache w4) = writeback (cache w)) /\
  (forall es w b,
     events_run w es ->
     exists os w',
       run es w = Done os w' /\
       pins w' b =
         (pins w b + total (held b) os + total (write_owed b) os)%Z /\
       (pins w b = 0%Z ->
        total (held b) os = 0%Z ->
        total (write_owed b) os = 0%Z ->
        total (read_owed b) os = 0%Z ->
        pins w' b = 0%Z)).
Proof.
  split.
  - intros tm b state state' w -> Hq Hres Hpin.
    destruct (serializer_t.copy_on_write (serializer (cache w))) eqn:Hcow.
    all: eexists _, _, _, _, _.
    all: split; [apply acquire_hit_eq; [reflexivity|exact Hres]|].
    all: split;
      [rewrite release_eq; simpl_world;
       rewrite N.eqb_refl, mark_dirty_eq; simpl_world; rewrite Hcow;
       reflexivity|].
    all: split; [pins_done Hpin|].
    all: split;
      [erewrite flush_last_eq by (simpl_world; reflexivity); reflexivity|].
    all: split; [simpl_world; reflexivity|].
    all: split; [pins_done Hpin|].
    all: split;
      [erewrite aio_complete_written_eq;
       [reflexivity|simpl_world; apply lookup_insert_eq|exact Hq]|].
    all: split; [pins_done Hpin|].
    all: simpl_world; repeat split; reflexivity.
  - intros es w b Hruns.
    destruct (run_runs _ _ Hruns) as (os & w' & Hrun).
    pose proof (run_pins _ _ _ _ b Hrun) as Hbal.
    exists os, w'. split; [exact Hrun|]. split; [exact Hbal|].
    intros Hpin Hheld Howed _. lia.
Qed.

(** C4, as stated, fails: the buffer [allocate] returns is not
    zero-initialized when the allocator's memory is not.  With an arena of
    [0xff] bytes the four bytes of the new block are [0xff]. *)
Lemma allocate_buffer_not_zeroed :
  exists w',
    wf stale_world /\
    allocate 1 stale_world = Done (4096, 8) w' /\
    block_size w' = 4 /\
    buffer_bytes w' 4096 = [xff; xff; xff; xff] /\
    buffer_bytes w' 4096 <> repeat x00 (N.to_nat (block_size w')).
Proof.
  eexists. split; [apply wf_initial; discriminate|].
  split; [reflexivity|]. split; [reflexivity|].
  split; [reflexivity|]. discriminate.
Qed.

(** C6: the assertion of [aio_complete] does not detect a completion run on
    another event queue.  A read issued under event queue 1 records that
    queue in its context; completing it on the thread of event queue 2
    passes the assertion and fills the page map, where [end_transaction] of
    a transaction of queue 1 fails its assertion.  On the matching queue
    both pass. *)
Theorem aio_complete_wrong_queue_undetected :
  exists w1 w2 w3,
    acquire 1 7 9 example_world = Done NULL w1 /\
    contexts w1 !! 1 = Some (mk_aio_context 9 7 1) /\
    aio_complete 1 4096 false (on_event_queue 2 w1) = Done tt w2 /\
    resident w2 7 = 4096 /\
    pins w2 7 = 1%Z /\
    end_transaction 1 (on_event_queue 2 w1) = AssertionFailed /\
    end_transaction 1 w1 = Done tt w1 /\
    aio_complete 1 4096 false w1 = Done tt w3.
Proof.
  eexists _, _, _. split; [reflexivity|]. split; [reflexivity|].
  split; [reflexivity|]. split; [reflexivity|]. split; [reflexivity|].
  split; [reflexivity|]. split; reflexivity.
Qed.

(** C8: a second [acquire] of an identifier whose read is in flight issues a
    second read into a second buffer, so the identifier has two live
    buffers.  When both reads complete, the first buffer is in the page map
    until the second completion replaces it; the identifier is then pinned
    twice and the first buffer is in the page map under no identifier. *)
Theorem second_acquire_second_buffer :
  exists w2 w3 w4,
    events_ok example_world
      [Acquire 1 7 9; Acquire 1 7 10;
       Complete 1 4096 false; Complete 2 4100 false] /\
    run [Acquire 1 7 9; Acquire 1 7 10] example_world =
      Done [Pending 7; Pending 7] w2 /\
    reads_issued w2 = [mk_io_request 1 7 4096 1; mk_io_request 1 7 4100 2] /\
    in_flight_buffers w2 7 = [4096; 4100] /\
    run [Complete 1 4096 false] w2 = Done [ReadDone 7] w3 /\
    resident w3 7 = 4096 /\
    run [Complete 2 4100 false] w3 = Done [ReadDone 7] w4 /\
    resident w4 7 = 4100 /\
    pins w4 7 = 2%Z /\
    page_map (cache w4) = {[ 7 := 4100 ]}.
Proof.
  eexists _, _, _.
  split.
  { cbn. repeat split; try lia.
    - intros _. exists (mk_io_request 1 7 4096 1).
      split; [|split; reflexivity]. vm_compute. apply list_elem_of_here.
    - intros _. exists (mk_io_request 1 7 4100 2).
      split; [|split; reflexivity]. vm_compute.
      apply list_elem_of_further, list_elem_of_here. }
  split; [reflexivity|]. split; [reflexivity|].
  split; [vm_compute; reflexivity|].
  split; [reflexivity|]. split; [reflexivity|]. split; [reflexivity|].
  split; [reflexivity|]. split; [reflexivity|]. vm_compute. reflexivity.
Qed.

(** ** The theorems at work *)

Lemma wf_example_world : wf example_world.
Proof. apply wf_initial; discriminate. Qed.

Lemma wf_cow_world : wf cow_world.
Proof. apply wf_initial; discriminate. Qed.

Ltac warm_events_ok :=
  vm_compute; split; [reflexivity|]; split; [|split; [reflexivity|exact I]];
  intros _; exists (mk_io_request 1 7 4096 1);
  split; [apply list_elem_of_here|split; reflexivity].

Lemma wf_warm_world : wf warm_world.
Proof.
  unfold warm_world.
  destruct (run _ example_world) as [os w'| |] eqn:Hrun;
    try apply wf_example_world.
  eapply run_wf; [apply wf_example_world| |exact Hrun]. warm_events_ok.
Qed.

Lemma wf_warm_cow_world : wf warm_cow_world.
Proof.
  unfold warm_cow_world.
  destruct (run _ cow_world) as [os w'| |] eqn:Hrun; try apply wf_cow_world.
  eapply run_wf; [apply wf_cow_world| |exact Hrun]. warm_events_ok.
Qed.

Lemma acquire_miss_then_fill_witness :
  exists w1 w2,
    acquire 1 7 9 example_world = Done NULL w1 /\
    aio_complete 1 4096 false w1 = Done tt w2 /\
    resident w2 7 = 4096 /\
    page_map_t.entries 7 (page_map (cache w2)) = 1%nat.
Proof.
  destruct (acquire_miss_then_fill 1 7 9 example_world)
    as (w1 & Hacq & _ & _ & _ & _ & _ & _ & _ & Hq & Hfill).
  - reflexivity.
  - discriminate.
  - exact wf_example_world.
  - reflexivity.
  - destruct (Hfill w1) as (w2 & Hdone & _ & Hres & Hone & _).
    + reflexivity.
    + rewrite Hq. discriminate.
    + exists w1, w2. repeat split; assumption.
Defined.

Lemma release_clean_or_dirty_witness :
  (exists w', release 1 7 4096 false 9 held_world = Done 7 w' /\
              pins w' 7 = (pins held_world 7 - 1)%Z) /\
  (exists new_id w', release 1 7 4096 true 9 held_world = Done new_id w' /\
                     pins w' 7 = pins held_world 7).
Proof.
  split.
  - destruct (release_clean_or_dirty 1 7 4096 false 9 held_world eq_refl)
      as [Hclean _].
    destruct (Hclean eq_refl) as (w' & Hrel & _ & Hpin & _).
    exists w'. split; assumption.
  - destruct (release_clean_or_dirty 1 7 4096 true 9 held_world eq_refl)
      as [_ Hdirty].
    destruct (Hdirty eq_refl) as (_ & new_id & w' & Hrel & _ & _ & _ & Hpin & _).
    exists new_id, w'. split; [exact Hrel|apply Hpin].
Defined.

Lemma pins_return_to_zero_witness :
  (exists new_id w1 w2 w3 w4,
     acquire 1 7 9 warm_world = Done 4096 w1 /\
     release 1 7 4096 true 9 w1 = Done new_id w2 /\
     writeback_flush 0 w2 = Done tt w3 /\
     aio_complete 2 4096 true w3 = Done tt w4 /\
     pins w4 7 = 0%Z) /\
  (exists os w',
     run [Acquire 1 7 9; Complete 1 4096 false; Release 1 7 4096 true 9;
          Flush 0; Complete 2 4096 true] example_world = Done os w' /\
     pins w' 7 = 0%Z).
Proof.
  destruct pins_return_to_zero as [Hseq Hbal]. split.
  - destruct (Hseq 1 7 9 9 warm_world)
      as (new_id & w1 & w2 & w3 & w4 & Hacq & Hrel & _ & Hflush & _ & _ &
          Hdone & Hpin & _).
    + reflexivity.
    + discriminate.
    + vm_compute. discriminate.
    + reflexivity.
    + exists new_id, w1, w2, w3, w4. repeat split; assumption.
  - destruct (Hbal [Acquire 1 7 9; Complete 1 4096 false;
                    Release 1 7 4096 true 9; Flush 0; Complete 2 4096 true]
                example_world 7)
      as (os & w' & Hrun & _ & Hzero).
    + vm_compute. repeat split; try discriminate; eexists; reflexivity.
    + exists os, w'. split; [exact Hrun|].
      vm_compute in Hrun. injection Hrun as <- _.
      apply Hzero; reflexivity.
Defined.

Lemma allocate_registers_and_pins_witness :
  exists w',
    allocate 1 example_world = Done (4096, 8) w' /\
    resident w' 8 = 4096 /\
    pins w' 8 = 1%Z.
Proof.
  destruct (allocate_registers_and_pins 1 example_world)
    as (block & id & w' & Halloc & -> & _ & _ & -> & _ & _ & _ & _ & _ &
        Hres & _ & _ & Hpin & _).
  - reflexivity.
  - exact wf_example_world.
  - exists w'. repeat split; assumption.
Defined.

Lemma acquire_resident_witness :
  exists w',
    acquire 1 7 9 warm_world = Done 4096 w' /\
    pins w' 7 = 1%Z /\
    reads_issued w' = reads_issued warm_world.
Proof.
  destruct (acquire_resident 1 7 9 warm_world)
    as (w' & Hacq & _ & Hpin & _ & _ & Hreads & _).
  - reflexivity.
  - vm_compute. discriminate.
  - exists w'. repeat split; assumption.
Defined.

Lemma allocate_release_acquire_witness :
  exists w1 w2 w3,
    allocate 1 example_world = Done (4096, 8) w1 /\
    release 1 8 4096 false 9 w1 = Done 8 w2 /\
    pins w2 8 = 0%Z /\
    acquire 1 8 10 w2 = Done 4096 w3 /\
    reads_issued w3 = [].
Proof.
  destruct (allocate_release_acquire 1 9 10 example_world)
    as (block & id & w1 & w2 & w3 & Halloc & Hrel & _ & _ & Hpin & Hacq &
        Hreads & _).
  - reflexivity.
  - exact wf_example_world.
  - assert (Hw : block = 4096 /\ id = 8).
    { rewrite allocate_eq in Halloc. cbn in Halloc.
      injection Halloc as <- <- _. split; reflexivity. }
    destruct Hw as [-> ->].
    exists w1, w2, w3. repeat split; assumption.
Defined.

Lemma acquire_absent_returns_null_witness :
  (exists w', acquire 1 7 9 example_world = Done NULL w' /\
              page_map (cache w') = page_map (cache example_world)) /\
  (exists p w', acquire 1 7 9 warm_world = Done p w' /\ p <> NULL).
Proof.
  split.
  - destruct (acquire_absent_returns_null 1 7 9 example_world eq_refl
                wf_example_world) as [Habsent _].
    destruct (Habsent eq_refl) as (w' & Hacq & Hpm & _).
    exists w'. split; assumption.
  - destruct (acquire_absent_returns_null 1 7 9 warm_world eq_refl
                wf_warm_world) as [_ Hres].
    apply Hres. vm_compute. discriminate.
Defined.

Lemma write_completion_keeps_page_map_witness :
  exists new_id w1 w2 w3,
    release 1 7 4096 true 9 warm_cow_world = Done new_id w1 /\
    new_id <> 7 /\
    writeback_flush 0 w1 = Done tt w2 /\
    aio_complete 2 4096 true w2 = Done tt w3 /\
    aio_complete 2 4096 true w2 =
      Done tt
        (mk_world (cpu_event_queue w2) (delete 2 (contexts w2))
           (context_top w2)
           (mk_cache (serializer (cache w2)) (buffer_alloc (cache w2))
              (page_map (cache w2))
              (page_repl_t.unpin 7 (page_repl (cache w2)))
              (writeback (cache w2)))) /\
    resident w3 7 = 4096 /\
    resident w3 new_id = NULL.
Proof.
  destruct write_completion_keeps_page_map as [Hframe Hcow].
  destruct (Hcow warm_cow_world 1 7 4096 9)
    as (new_id & w1 & w2 & w3 & Hrel & Hne & Hflush & _ & Hctx & Hdone & _ &
        Hres & _ & Hnew & _).
  - reflexivity.
  - discriminate.
  - exact wf_warm_cow_world.
  - reflexivity.
  - reflexivity.
  - exists new_id, w1, w2, w3.
    assert (Hq : cpu_event_queue w2 <> NULL).
    { rewrite flush_eq in Hflush. rewrite release_eq in Hrel.
      vm_compute in Hrel. injection Hrel as <- <-.
      vm_compute in Hflush. injection Hflush as <-. discriminate. }
    repeat split; try assumption.
    exact (Hframe w2 2 _ 4096 Hctx Hq).
Defined.

(** ** Further properties of the header's functions *)

(** X1: the handle [begin_transaction] returns is the current event queue
    and the call changes nothing; [end_transaction] accepts that handle on
    the thread it was begun on and fails its assertion on a thread with any
    other event queue. *)
Theorem transaction_round_trip w :
  exists tm,
    begin_transaction w = Done tm w /\
    tm = cpu_event_queue w /\
    end_transaction tm w = Done tt w /\
    forall q,
      q <> cpu_event_queue w ->
      end_transaction tm (on_event_queue q w) = AssertionFailed.
Proof.
  exists (cpu_event_queue w). split; [reflexivity|]. split; [reflexivity|].
  split.
  - rewrite end_transaction_eq, N.eqb_refl. reflexivity.
  - intros q Hq. rewrite end_transaction_eq. cbn.
    destruct (N.eqb_spec (cpu_event_queue w) q) as [Heq|_]; [|reflexivity].
    congruence.
Qed.

Lemma transaction_round_trip_witness :
  begin_transaction example_world = Done 1 example_world /\
  end_transaction 1 (on_event_queue 2 example_world) = AssertionFailed.
Proof.
  destruct (transaction_round_trip example_world)
    as (tm & Hbegin & Htm & _ & Hother).
  cbn in Htm. subst tm. split; [exact Hbegin|].
  apply Hother. discriminate.
Defined.

(** X2: called with a transaction that is not the current event queue,
    [allocate], [acquire], [release] and [end_transaction] all stop at their
    first statement, the assertion: nothing is generated, allocated,
    pinned or issued. *)
Theorem api_rejects_foreign_transaction tm b block dirty state w :
  tm <> cpu_event_queue w ->
  allocate tm w = AssertionFailed /\
  acquire tm b state w = AssertionFailed /\
  release tm b block dirty state w = AssertionFailed /\
  end_transaction tm w = AssertionFailed.
Proof.
  intros Hne. apply N.eqb_neq in Hne.
  rewrite allocate_eq, acquire_eq, release_eq, end_transaction_eq, Hne.
  repeat split; reflexivity.
Qed.

Lemma api_rejects_foreign_transaction_witness :
  allocate 2 example_world = AssertionFailed /\
  acquire 2 7 9 example_world = AssertionFailed /\
  release 2 7 4096 true 9 example_world = AssertionFailed /\
  end_transaction 2 example_world = AssertionFailed.
Proof.
  apply (api_rejects_foreign_transaction 2 7 4096 true 9 example_world).
  discriminate.
Defined.

(** X3: [aio_complete] destroys its context.  On a context that is not live
    the call is undefined (it reads through a dangling pointer); on a live
    one it succeeds, the context is gone afterwards, and a second completion
    with the same context is undefined whatever its other arguments. *)
Theorem aio_complete_twice_undefined ctx block written w :
  (contexts w !! ctx = None ->
   aio_complete ctx block written w = Undefined) /\
  (is_Some (contexts w !! ctx) ->
   cpu_event_queue w <> NULL ->
   exists w',
     aio_complete ctx block written w = Done tt w' /\
     contexts w' = delete ctx (contexts w) /\
     forall block' written',
       aio_complete ctx block' written' w' = Undefined).
Proof.
  split.
  - intros Hnone. rewrite aio_complete_eq, Hnone. reflexivity.
  - intros [c Hc] Hq. rewrite aio_complete_eq, Hc.
    apply is_null_false in Hq. rewrite Hq.
    eexists. split; [reflexivity|]. split; [reflexivity|].
    intros block' written'. rewrite aio_complete_eq. cbn.
    rewrite lookup_delete_eq. reflexivity.
Qed.

Lemma aio_complete_twice_undefined_witness :
  aio_complete 5 4096 false pending_world = Undefined /\
  exists w',
    aio_complete 1 4096 false pending_world = Done tt w' /\
    aio_complete 1 4096 false w' = Undefined.
Proof.
  destruct (aio_complete_twice_undefined 5 4096 false pending_world)
    as [Hdangling _].
  destruct (aio_complete_twice_undefined 1 4096 false pending_world)
    as [_ Hlive].
  split; [apply Hdangling; reflexivity|].
  destruct Hlive as (w' & Hdone & _ & Hagain).
  - eexists. reflexivity.
  - discriminate.
  - exists w'. split; [exact Hdone|apply Hagain].
Defined.

(** X4: of the context it is given, [aio_complete] uses the block identifier
    only.  The caller's state and the event queue recorded in the context do
    not reach the outcome: two contexts with the same identifier give the
    same result and the same world. *)
Theorem aio_complete_reads_only_block_id ctx c c' block written w :
  contexts w !! ctx = Some c ->
  block_id c' = block_id c ->
  aio_complete ctx block written (set_contexts <[ctx := c']> w) =
  aio_complete ctx block written w.
Proof.
  intros Hc Hid. rewrite !aio_complete_eq. cbn.
  rewrite lookup_insert_eq, Hc, delete_insert_eq, Hid. reflexivity.
Qed.

Lemma aio_complete_reads_only_block_id_witness :
  aio_complete 1 4096 false
    (set_contexts <[1 := mk_aio_context 33 7 44]> pending_world) =
  aio_complete 1 4096 false pending_world.
Proof.
  apply (aio_complete_reads_only_block_id 1 (mk_aio_context 9 7 1)
           (mk_aio_context 33 7 44) 4096 false pending_world);
    reflexivity.
Defined.

(** X5: with a live context, the assertion of [aio_complete] fails exactly
    when the calling thread has no event queue (a null pointer); which event
    queue the context recorded plays no part. *)
Theorem aio_complete_assertion_iff_null_queue ctx block written w :
  is_Some (contexts w !! ctx) ->
  (aio_complete ctx block written w = AssertionFailed <->
   cpu_event_queue w = NULL).
Proof.
  intros [c Hc]. rewrite aio_complete_eq, Hc.
  destruct (is_null (cpu_event_queue w)) eqn:Hq.
  - apply is_null_true in Hq. split; [intros _; exact Hq|reflexivity].
  - apply is_null_false in Hq. split; [discriminate|contradiction].
Qed.

Lemma aio_complete_assertion_iff_null_queue_witness :
  aio_complete 1 4096 false (on_event_queue NULL pending_world) =
  AssertionFailed.
Proof.
  apply (aio_complete_assertion_iff_null_queue 1 4096 false
           (on_event_queue NULL pending_world)).
  - eexists. reflexivity.
  - reflexivity.
Defined.

(** X6: acquiring a resident block and releasing it clean is a round trip:
    the release returns the identifier it was given, and every pin count,
    the page map, the serializer with its requests, the allocator, the
    writeback's list and the contexts are as before the acquire. *)
Theorem acquire_release_round_trip tm b state state' w :
  tm = cpu_event_queue w ->
  resident w b <> NULL ->
  exists w1 w2,
    acquire tm b state w = Done (resident w b) w1 /\
    release tm b (resident w b) false state' w1 = Done b w2 /\
    (forall b', pins w2 b' = pins w b') /\
    page_map (cache w2) = page_map (cache w) /\
    serializer (cache w2) = serializer (cache w) /\
    buffer_alloc (cache w2) = buffer_alloc (cache w) /\
    writeback (cache w2) = writeback (cache w) /\
    contexts w2 = contexts w /\
    context_top w2 = context_top w /\
    cpu_event_queue w2 = cpu_event_queue w.
Proof.
  intros -> Hres. eexists _, _.
  split; [apply acquire_hit_eq; [reflexivity|exact Hres]|].
  split; [rewrite release_eq; simpl_world; rewrite N.eqb_refl; reflexivity|].
  split.
  { intros b'. unfold pins. simpl_world.
    rewrite pin_count_unpin, pin_count_pin. lia. }
  simpl_world. repeat split; reflexivity.
Qed.

Lemma acquire_release_round_trip_witness :
  exists w1 w2,
    acquire 1 7 9 warm_world = Done 4096 w1 /\
    release 1 7 4096 false 9 w1 = Done 7 w2 /\
    pins w2 7 = pins warm_world 7 /\
    page_map (cache w2) = page_map (cache warm_world).
Proof.
  destruct (acquire_release_round_trip 1 7 9 9 warm_world)
    as (w1 & w2 & Hacq & Hrel & Hpins & Hpm & _).
  - reflexivity.
  - vm_compute. discriminate.
  - exists w1, w2. repeat split; [exact Hacq|exact Hrel|apply Hpins|exact Hpm].
Defined.

(** X7: what a run keeps.  From a well-formed world, under events that name
    identifiers of the serializer and deliver read completions with the
    buffer of the read they complete, every world reached is well formed: no
    null buffer is registered, so the null test of [acquire] takes an
    identifier for absent exactly when the page map has no entry for it, and
    every registered buffer lies in memory the allocator has handed out. *)
Theorem run_keeps_well_formed es w os w' :
  wf w ->
  events_ok w es ->
  run es w = Done os w' ->
  wf w' /\
  (forall b, resident w' b = NULL <-> page_map (cache w') !! b = None) /\
  (forall b p, page_map (cache w') !! b = Some p -> p < heap_top w') /\
  (forall b, pins w' b <> 0%Z -> b < next_id w').
Proof.
  intros Hwf Hok Hrun.
  assert (Hwf' : wf w') by (eapply run_wf; eassumption).
  split; [exact Hwf'|]. split; [|split].
  - intros b. unfold resident, page_map_t.find.
    destruct (page_map (cache w') !! b) as [p|] eqn:Hp; cbn.
    + apply (wf_page_map _ Hwf') in Hp. split; [intros ->; lia|discriminate].
    + split; reflexivity.
  - intros b p Hp. apply (wf_page_map _ Hwf') in Hp. lia.
  - apply (wf_pins _ Hwf').
Qed.

Lemma run_keeps_well_formed_witness :
  wf warm_world /\
  (resident warm_world 3 = NULL <-> page_map (cache warm_world) !! 3 = None).
Proof.
  destruct (run_keeps_well_formed
              [Acquire 1 7 9; Complete 1 4096 false; Release 1 7 4096 false 9]
              example_world
              [Pending 7; ReadDone 7; Released 7 false 7]
              warm_world)
    as (Hwf & Hnull & _).
  - apply wf_initial; discriminate.
  - vm_compute. split; [reflexivity|]. split; [|split; [reflexivity|exact I]].
    intros _. exists (mk_io_request 1 7 4096 1).
    split; [apply list_elem_of_here|split; reflexivity].
  - vm_compute. reflexivity.
  - split; [exact Hwf|apply Hnull].
Defined.

(** X8: a miss leaves the identifier absent, so [acquire] called again before
    the read completes misses again: the two calls issue two reads of the
    same block, into two different buffers and keyed by two different
    contexts, and register neither buffer. *)
Theorem acquire_miss_repeats tm b state1 state2 w :
  tm = cpu_event_queue w ->
  wf w ->
  resident w b = NULL ->
  exists w1 w2,
    acquire tm b state1 w = Done NULL w1 /\
    acquire tm b state2 w1 = Done NULL w2 /\
    reads_issued w2 =
      reads_issued w ++
      [mk_io_request tm b (heap_top w) (context_top w);
       mk_io_request tm b (heap_top w + block_size w)
         (N.succ (context_top w))] /\
    heap_top w + block_size w <> heap_top w /\
    contexts w2 !! context_top w = Some (mk_aio_context state1 b tm) /\
    contexts w2 !! N.succ (context_top w) =
      Some (mk_aio_context state2 b tm) /\
    page_map (cache w2) = page_map (cache w) /\
    (forall b', pins w2 b' = pins w b').
Proof.
  intros Htm Hwf Hres. eexists _, _.
  split; [apply acquire_miss_eq; assumption|].
  split; [apply acquire_miss_eq; [exact Htm|exact Hres]|].
  unfold reads_issued, heap_top, block_size, pins. cbn.
  rewrite <- app_assoc. split; [reflexivity|].
  split. { pose proof (wf_size _ Hwf) as Hsize. unfold block_size in Hsize. lia. }
  split. { rewrite lookup_insert_ne by lia. apply lookup_insert_eq. }
  split; [apply lookup_insert_eq|]. split; reflexivity.
Qed.

Lemma acquire_miss_repeats_witness :
  exists w1 w2,
    acquire 1 7 9 example_world = Done NULL w1 /\
    acquire 1 7 10 w1 = Done NULL w2 /\
    reads_issued w2 = [mk_io_request 1 7 4096 1; mk_io_request 1 7 4100 2].
Proof.
  destruct (acquire_miss_repeats 1 7 9 10 example_world)
    as (w1 & w2 & Hfirst & Hsecond & Hreads & _).
  - reflexivity.
  - apply wf_initial; discriminate.
  - reflexivity.
  - exists w1, w2. repeat split; assumption.
Defined.

(** X9: the one event that issues a read is an [acquire] that misses, and it
    issues exactly one, for the identifier asked for, into the buffer and
    with the context it has just allocated.  [allocate], an [acquire] that
    hits, [release], the writeback's flush and both kinds of completion
    leave the reads as they were. *)
Theorem reads_only_on_miss e w o w' :
  step e w = Done o w' ->
  reads_issued w' =
  reads_issued w ++
  match e, o with
  | Acquire tm b _, Pending _ =>
      [mk_io_request tm b (heap_top w) (context_top w)]
  | _, _ => []
  end.
Proof.
  intros H. destruct e; step_inv H; injection H as <- <-;
    unfold reads_issued; cbn; rewrite ?app_nil_r; reflexivity.
Qed.

Lemma reads_only_on_miss_witness :
  reads_issued pending_world = [mk_io_request 1 7 4096 1].
Proof.
  apply (reads_only_on_miss (Acquire 1 7 9) example_world (Pending 7)
           pending_world).
  reflexivity.
Defined.



